(** * bibliography.py: author/title canonicalisation and the entry template

    A shallow embedding of [bibliography.py] (a Sublime Text plugin that
    builds one bibliography line from four prompted fields) and the
    properties of its two canonicalisers and of its substitution step.

    Modelling choices.
    - A Python [str] is a Rocq [string] whose characters are the code points
      0..255 (ASCII and Latin-1).  On that range [str.lower] keeps the length
      of a string, which the source relies on when it uses an index found in
      [value.lower()] to cut [value].
    - Python integers are [Z]; [str.find] keeps its [-1] answer.
    - A raised exception is a value of [exn]; code that can raise lives in
      the [result] monad.
    - The calls into the editor ([show_input_panel], [run_command]) are
      returned as a value of [ui]: the step itself is a pure function. *)

From Stdlib Require Import String Ascii List ZArith Lia Bool.
Import ListNotations.
Local Open Scope string_scope.

(** ** Exceptions and results *)

Inductive exn : Type :=
| IndexError                  (* string index out of range *)
| KeyError (key : string)     (* missing dictionary key *)
| TypeError                   (* wrong number of arguments for a format *)
| ValueError                  (* unsupported format character *)
| re_error.                   (* re.error: a bad replacement template *)

Inductive result (A : Type) : Type :=
| Ok (a : A)
| Raise (e : exn).

Arguments Ok {A} a.
Arguments Raise {A} e.

Definition bind {A B : Type} (r : result A) (k : A -> result B) : result B :=
  match r with
  | Ok a => k a
  | Raise e => Raise e
  end.

Notation "x <- r ;; k" := (bind r (fun x => k))
  (at level 61, r at next level, right associativity).

(** ** Python string primitives *)

Module Py.

(** [len(s)] *)
Definition len (s : string) : Z := Z.of_nat (String.length s).

(** [bool(s)]: a string is true when it is not empty. *)
Definition truthy (s : string) : bool :=
  match s with
  | EmptyString => false
  | String _ _ => true
  end.

Fixpoint take (n : nat) (s : string) : string :=
  match n, s with
  | S k, String c s' => String c (take k s')
  | _, _ => EmptyString
  end.

Fixpoint drop (n : nat) (s : string) : string :=
  match n, s with
  | S k, String _ s' => drop k s'
  | _, _ => s
  end.

(** Normalisation of a slice bound: a negative bound counts from the end,
    and the bound is then clipped to [0..len]. *)
Definition bound (n : Z) (i : Z) : nat :=
  let i := if (i <? 0)%Z then (i + n)%Z else i in
  Z.to_nat (Z.min (Z.max 0 i) n).

(** [s[lo:hi]]; [None] is an omitted bound. *)
Definition slice (s : string) (lo hi : option Z) : string :=
  let a := match lo with Some i => bound (len s) i | None => 0 end in
  let b := match hi with Some j => bound (len s) j | None => String.length s end in
  take (b - a) (drop a s).

(** [s[i]]; raises [IndexError] out of range. *)
Definition getitem (s : string) (i : Z) : result ascii :=
  let j := if (i <? 0)%Z then (i + len s)%Z else i in
  if ((j <? 0) || (len s <=? j))%Z then Raise IndexError
  else match String.get (Z.to_nat j) s with
       | Some c => Ok c
       | None => Raise IndexError
       end.

(** [s.startswith(p)] *)
Fixpoint startswith (p s : string) : bool :=
  match p, s with
  | EmptyString, _ => true
  | String a p', String b s' => Ascii.eqb a b && startswith p' s'
  | String _ _, EmptyString => false
  end.

(** Index of the first occurrence of [sub] in [s]. *)
Fixpoint index_of (sub s : string) : option nat :=
  if startswith sub s then Some 0
  else match s with
       | EmptyString => None
       | String _ s' => option_map S (index_of sub s')
       end.

(** [s.find(sub)]: the lowest index, or [-1]. *)
Definition find (s sub : string) : Z :=
  match index_of sub s with
  | Some i => Z.of_nat i
  | None => (-1)%Z
  end.

(** [sub in s] *)
Definition contains (s sub : string) : bool :=
  match index_of sub s with
  | Some _ => true
  | None => false
  end.

(** [s.endswith(p)]: [p] is [s] or a suffix of its tail. *)
Fixpoint endswith (s p : string) : bool :=
  String.eqb s p ||
  match s with
  | EmptyString => false
  | String _ s' => endswith s' p
  end.

(** Every character of [s] satisfies [f]. *)
Fixpoint all_chars (f : ascii -> bool) (s : string) : bool :=
  match s with
  | EmptyString => true
  | String c s' => f c && all_chars f s'
  end.

(** [str.lower] on one code point below 256: A-Z and the Latin-1 capitals
    (U+00C0..U+00DE without the multiplication sign U+00D7) move up by 32. *)
Definition lower_char (c : ascii) : ascii :=
  let n := nat_of_ascii c in
  if (((65 <=? n) && (n <=? 90)) ||
      ((192 <=? n) && (n <=? 222) && negb (n =? 215)))%nat
  then ascii_of_nat (n + 32)
  else c.

Fixpoint lower (s : string) : string :=
  match s with
  | EmptyString => EmptyString
  | String c s' => String (lower_char c) (lower s')
  end.

(** [str.isspace] on one code point below 256: TAB..CR, FS..US, space,
    NEL (U+0085) and the no-break space (U+00A0). *)
Definition isspace (c : ascii) : bool :=
  let n := nat_of_ascii c in
  (((9 <=? n) && (n <=? 13)) || ((28 <=? n) && (n <=? 32)) ||
   (n =? 133) || (n =? 160))%nat.

Fixpoint lstrip (s : string) : string :=
  match s with
  | EmptyString => EmptyString
  | String c s' => if isspace c then lstrip s' else s
  end.

Fixpoint rstrip (s : string) : string :=
  match s with
  | EmptyString => EmptyString
  | String c s' =>
      match rstrip s' with
      | EmptyString => if isspace c then EmptyString else String c EmptyString
      | r => String c r
      end
  end.

(** [s.strip()] *)
Definition strip (s : string) : string := lstrip (rstrip s).

(** [fmt % args] for the conversions the program uses: [%s] takes the next
    argument, [%%] is a percent sign.  Too few or too many arguments raise
    [TypeError]; any other conversion character raises [ValueError]. *)
Fixpoint format (fmt : string) (args : list string) : result string :=
  match fmt with
  | EmptyString =>
      match args with
      | [] => Ok EmptyString
      | _ :: _ => Raise TypeError
      end
  | String c rest =>
      if Ascii.eqb c "%" then
        match rest with
        | EmptyString => Raise ValueError
        | String d rest' =>
            if Ascii.eqb d "s" then
              match args with
              | a :: args' => r <- format rest' args' ;; Ok (a ++ r)
              | [] => Raise TypeError
              end
            else if Ascii.eqb d "%" then
              r <- format rest' args ;; Ok (String "%" r)
            else Raise ValueError
        end
      else r <- format rest args ;; Ok (String c r)
  end.

End Py.

Import Py.

(** ** The two functions of [re] that the program calls

    The program calls [re.sub] with the pattern ["<%s>" % var], where [var]
    is a key of [VARS], and [re.findall] with the fixed pattern
    ["<(author|title|pubdate|ref)>"].  Neither pattern has a metacharacter
    outside the one alternation, so a match is an occurrence of the literal
    token.  The replacement argument of [re.sub] is a template: it goes
    through [parse_template] of CPython's [re] (as of CPython 3.12; an
    unknown letter escape is an error since 3.7), here for a pattern
    without groups. *)

Module Re.

Definition is_digit (c : ascii) : bool :=
  let n := nat_of_ascii c in ((48 <=? n) && (n <=? 57))%nat.

Definition is_octdigit (c : ascii) : bool :=
  let n := nat_of_ascii c in ((48 <=? n) && (n <=? 55))%nat.

Definition is_ascii_letter (c : ascii) : bool :=
  let n := nat_of_ascii c in
  (((65 <=? n) && (n <=? 90)) || ((97 <=? n) && (n <=? 122)))%nat.

(** First and following characters of a Python identifier (code points
    below 256), for the check of a group name. *)
Definition is_id_start (c : ascii) : bool :=
  let n := nat_of_ascii c in
  (is_ascii_letter c || (n =? 95) || (n =? 170) || (n =? 181) || (n =? 186) ||
   ((192 <=? n) && (n <=? 214)) || ((216 <=? n) && (n <=? 246)) ||
   (248 <=? n))%nat.

Definition is_id_continue (c : ascii) : bool :=
  is_id_start c || is_digit c || (nat_of_ascii c =? 183)%nat.

Definition isidentifier (s : string) : bool :=
  match s with
  | EmptyString => false
  | String c s' => is_id_start c && all_chars is_id_continue s'
  end.

Definition octal (c : ascii) : nat := nat_of_ascii c - 48.

(** The table [ESCAPES]: the character an escaped letter stands for. *)
Definition escape (c : ascii) : option ascii :=
  if Ascii.eqb c "a" then Some (ascii_of_nat 7)
  else if Ascii.eqb c "b" then Some (ascii_of_nat 8)
  else if Ascii.eqb c "f" then Some (ascii_of_nat 12)
  else if Ascii.eqb c "n" then Some (ascii_of_nat 10)
  else if Ascii.eqb c "r" then Some (ascii_of_nat 13)
  else if Ascii.eqb c "t" then Some (ascii_of_nat 9)
  else if Ascii.eqb c "v" then Some (ascii_of_nat 11)
  else if Ascii.eqb c "\" then Some "\"%char
  else None.

(** A reference [\g<name>] in a template for a pattern without groups:
    only group 0, the whole match [m], exists. *)
Definition group (m name : string) : result string :=
  match name with
  | EmptyString => Raise re_error (* missing group name *)
  | String _ _ =>
      if all_chars is_digit name then
        if all_chars (Ascii.eqb "0") name then Ok m
        else Raise re_error (* invalid group reference *)
      else if isidentifier name then Raise IndexError   (* unknown group name *)
      else Raise re_error (* bad character in group name *)
  end.

Definition cons_char (c : ascii) (r : result string) : result string :=
  s <- r ;; Ok (String c s).

(** Expansion of the replacement template [repl] for one match [m].
    [name] is [Some n] while the characters of a group name are being read
    (after [\g<], with [n] read so far). *)
Fixpoint expand (m : string) (name : option string) (repl : string)
  : result string :=
  match name with
  | Some n =>
      match repl with
      | EmptyString => Raise re_error (* missing >, unterminated name *)
      | String c rest =>
          if Ascii.eqb c ">" then
            (* the tokenizer has read one token ahead: a lone backslash that
               ends the template is reported before the group is looked up *)
            if String.eqb rest "\" then Raise re_error (* bad escape (end of pattern) *)
            else g <- group m n ;; s <- expand m None rest ;; Ok (g ++ s)
          else if Ascii.eqb c "\" then
            (* the tokenizer reads a backslash together with the next character *)
            match rest with
            | EmptyString => Raise re_error (* bad escape (end of pattern) *)
            | String e rest1 =>
                expand m (Some (n ++ String c (String e EmptyString))) rest1
            end
          else expand m (Some (n ++ String c EmptyString)) rest
      end
  | None =>
      match repl with
      | EmptyString => Ok EmptyString
      | String c rest =>
          if negb (Ascii.eqb c "\") then cons_char c (expand m None rest)
          else
            match rest with
            | EmptyString => Raise re_error (* bad escape (end of pattern) *)
            | String e rest1 =>
                if Ascii.eqb e "g" then
                  match rest1 with
                  | String b rest2 =>
                      if Ascii.eqb b "<" then expand m (Some EmptyString) rest2
                      else Raise re_error (* missing < *)
                  | EmptyString => Raise re_error (* missing < *)
                  end
                else if Ascii.eqb e "0" then
                  (* octal escape: up to two more octal digits, value & 0xff *)
                  match rest1 with
                  | String d1 rest2 =>
                      if is_octdigit d1 then
                        match rest2 with
                        | String d2 rest3 =>
                            if is_octdigit d2 then
                              cons_char
                                (ascii_of_nat ((8 * octal d1 + octal d2) mod 256))
                                (expand m None rest3)
                            else cons_char (ascii_of_nat (octal d1))
                                           (expand m None rest2)
                        | EmptyString =>
                            cons_char (ascii_of_nat (octal d1))
                                      (expand m None rest2)
                        end
                      else cons_char (ascii_of_nat 0) (expand m None rest1)
                  | EmptyString => Ok (String (ascii_of_nat 0) EmptyString)
                  end
                else if is_digit e then
                  (* three octal digits are a character; anything else is a
                     reference to a group 1..99, which does not exist *)
                  match rest1 with
                  | String d1 (String d2 rest3) =>
                      if is_octdigit e && is_octdigit d1 && is_octdigit d2 then
                        let v := 64 * octal e + 8 * octal d1 + octal d2 in
                        if (255 <? v)%nat
                        then Raise re_error (* octal escape value outside of range 0-0o377 *)
                        else cons_char (ascii_of_nat v) (expand m None rest3)
                      else Raise re_error (* invalid group reference *)
                  | _ => Raise re_error (* invalid group reference *)
                  end
                else
                  match escape e with
                  | Some x => cons_char x (expand m None rest1)
                  | None =>
                      if is_ascii_letter e then Raise re_error (* bad escape *)
                      else cons_char c (cons_char e (expand m None rest1))
                  end
            end
      end
  end.

(** Left-to-right replacement of the non-overlapping occurrences of the
    literal [pattern] (not empty) by [r]; [skip] characters of a match that
    was just replaced are still to be passed over. *)
Fixpoint sub_from (pattern r : string) (skip : nat) (s : string) : string :=
  match s with
  | EmptyString => EmptyString
  | String c s' =>
      match skip with
      | S k => sub_from pattern r k s'
      | O =>
          if startswith pattern s
          then r ++ sub_from pattern r (String.length pattern - 1) s'
          else String c (sub_from pattern r 0 s')
      end
  end.

(** [re.sub(pattern, repl, s)] for a literal, non-empty [pattern].  The
    template is compiled before the search, so a bad template raises even
    when [s] has no match. *)
Definition sub (pattern repl s : string) : result string :=
  r <- expand pattern None repl ;;
  Ok (sub_from pattern r 0 s).

(** The names of the alternation, in its order. *)
Definition names : list string := ["author"; "title"; "pubdate"; "ref"].

(** The name whose token [<name>] starts [s], if any. *)
Definition token_at (s : string) : option string :=
  List.find (fun n => startswith ("<" ++ n ++ ">") s) names.

Fixpoint findall_from (skip : nat) (s : string) : list string :=
  match s with
  | EmptyString => []
  | String _ s' =>
      match skip with
      | S k => findall_from k s'
      | O =>
          match token_at s with
          | Some n => n :: findall_from (String.length n + 1) s'
          | None => findall_from 0 s'
          end
      end
  end.

(** [re.findall("<(author|title|pubdate|ref)>", s)]: the names of the
    tokens of [s], left to right. *)
Definition findall (s : string) : list string := findall_from 0 s.

End Re.

(** ** The program *)

(** [canonicalize_author(value)] *)
Definition canonicalize_author (value : string) : result string :=
  if negb (truthy value) then Ok ""
  else
    let et_all := "et all" in
    (* Strip trailing periods from the input string. *)
    c <- getitem value (-1) ;;
    let value :=
      if Ascii.eqb c "." then slice value None (Some (len value - 1)%Z)
      else value in
    (* Strip off "et all" if it exists *)
    let i := find (lower value) et_all in
    let '(value, et_all) :=
      if (i >? -1)%Z
      then (slice value None (Some i) ++ slice value (Some (i + len et_all)%Z) None,
            et_all)
      else (value, "") in
    (* Convert the "first last" to "last, first" iff there is no comma in
       the value and there's at least one space. *)
    let i := find value "," in
    let value :=
      if (i =? -1)%Z then
        let i := find value " " in
        if (i >? 0)%Z then
          let first := strip (slice value None (Some i)) in
          let last := strip (slice value (Some i) None) in
          last ++ ", " ++ first
        else value
      else value in
    (* Move "et all" to the end *)
    let value :=
      if truthy et_all then strip value ++ " " ++ et_all else value in
    (* Strip trailing periods from the input string. *)
    c <- getitem value (-1) ;;
    let value :=
      if Ascii.eqb c "." then slice value None (Some (len value - 1)%Z)
      else value in
    Ok value.

(** The double-quote character, code point 34. *)
Definition quote : ascii := "034"%char.

(** [canonicalize_title(value)] *)
Definition canonicalize_title (value : string) : result string :=
  if negb (truthy value) then Ok ""
  else
    c <- getitem value 0 ;;
    let value := if Ascii.eqb c quote then slice value (Some 1%Z) None else value in
    c <- getitem value (-1) ;;
    let value := if Ascii.eqb c quote then slice value None (Some (-1)%Z) else value in
    Ok value.

(** Template for a bibliography entry. *)
Definition TEMPLATE : string := "<author> <title> <pubdate> <ref>".

(** The named tuple [Variable] ([Variable] is a reserved word here). *)
Record Variable_ : Type := {
  caption : string;
  template : string;
  filter : option (string -> result string)
}.

(** The dictionary [VARS], as its items in the order of the source. *)
Definition VARS : list (string * Variable_) :=
  [ ("author",  {| caption := "Author (Last, First)";
                   template := "%s.";
                   filter := Some canonicalize_author |});
    ("title",   {| caption := "Title";
                   template := String quote "%s" ++ String quote "";
                   filter := Some canonicalize_title |});
    ("pubdate", {| caption := "Publication Date (DD MMM YYYY)";
                   template := "%s.";
                   filter := None |});
    ("ref",     {| caption := "Reference";
                   template := "<<%s>>";
                   filter := None |}) ].

(** [VARS[var]]: the value of the first item with that key, or [KeyError]. *)
Definition VARS_getitem (var : string) : result Variable_ :=
  match List.find (fun kv => String.eqb (fst kv) var) VARS with
  | Some kv => Ok (snd kv)
  | None => Raise (KeyError var)
  end.

(** What a call of [get_next_input_or_insert] asks of the editor: a prompt
    whose [done] callback is [partial(self.get_next_input_or_insert, edit,
    entry, var)], or the insertion of the finished entry. *)
Inductive ui : Type :=
| show_input_panel (caption entry var : string)
| insert (characters : string).

(** Lines 154-158: the value of [text] that goes into the entry, after the
    variable's filter and template. *)
Definition wrap (var text : string) : result string :=
  v <- VARS_getitem var ;;
  let filter_fn := filter v in
  text <- (if truthy text
           then match filter_fn with
                | Some f => f text
                | None => Ok text
                end
           else Ok text) ;;
  if truthy text then format (template v) [text] else Ok text.

(** Lines 153-160: the substitution of [text] for the variable [var]. *)
Definition substitute (entry var text : string) : result string :=
  text <- wrap var text ;;
  pattern <- format "<%s>" [var] ;;
  entry <- Re.sub pattern text entry ;;
  Ok (strip entry).

(** [get_next_input_or_insert(self, edit, entry, var=None, text=None)] *)
Definition get_next_input_or_insert (entry : string) (var text : option string)
  : result ui :=
  let text := match text with Some t => t | None => "" end in
  entry <- match var with
           | Some var => substitute entry var text
           | None => Ok entry
           end ;;
  let vars := Re.findall entry in
  match vars with
  | var :: _ =>
      v <- VARS_getitem var ;;
      Ok (show_input_panel (caption v) entry var)
  | [] => Ok (insert entry)
  end.

(** [run(self, edit)]; [selection] is the text of the first selection. *)
Definition run (selection : string) : result ui :=
  let entry := TEMPLATE in
  if (len selection >? 0)%Z
  then get_next_input_or_insert entry (Some "ref") (Some selection)
  else get_next_input_or_insert entry None None.

(** The user answers the prompts with [inputs], one after the other: each
    answer calls the prompt's callback.  The result lists the variables that
    were prompted for and what the editor is left with. *)
Fixpoint answer (inputs : list string) (u : ui) : result (list string * ui) :=
  match u, inputs with
  | show_input_panel _ entry var, text :: inputs' =>
      u' <- get_next_input_or_insert entry (Some var) (Some text) ;;
      r <- answer inputs' u' ;;
      Ok (var :: fst r, snd r)
  | _, _ => Ok ([], u)
  end.

(** ** Vocabulary of the statements *)

(** The placeholder token of a variable. *)
Definition token (var : string) : string := "<" ++ var ++ ">".




(** [s] between double quotes. *)
Definition quoted (s : string) : string := String quote s ++ String quote "".

(** [s] consists of white space only. *)
Definition blank (s : string) : bool := all_chars isspace s.



(** * Properties *)

(** ** Strings: concatenation, prefixes, cutting *)

Section StringFacts.

Lemma append_empty_r (s : string) : s ++ "" = s.
Proof. induction s as [|c s IH]; simpl; [reflexivity | now rewrite IH]. Qed.

Lemma append_assoc (a b c : string) : (a ++ b) ++ c = a ++ b ++ c.
Proof. induction a as [|x a IH]; simpl; [reflexivity | now rewrite IH]. Qed.

Lemma length_append (a b : string) :
  String.length (a ++ b) = String.length a + String.length b.
Proof. induction a as [|x a IH]; simpl; [reflexivity | now rewrite IH]. Qed.

Lemma startswith_app (p t : string) : startswith p (p ++ t) = true.
Proof.
  induction p as [|c p IH]; simpl; [reflexivity|].
  now rewrite Ascii.eqb_refl, IH.
Qed.

Lemma startswith_split (p s : string) :
  startswith p s = true -> s = p ++ drop (String.length p) s.
Proof.
  revert s; induction p as [|c p IH]; intros [|d s] H; simpl in *;
    try reflexivity; try discriminate.
  apply andb_true_iff in H as [Hc Hp].
  apply Ascii.eqb_eq in Hc; subst d.
  now rewrite <- IH.
Qed.

Lemma startswith_app_r (p a b : string) :
  startswith p a = true -> startswith p (a ++ b) = true.
Proof.
  revert a; induction p as [|c p IH]; intros [|d a] H; simpl in *;
    try reflexivity; try discriminate.
  apply andb_true_iff in H as [Hc Hp].
  now rewrite Hc, IH.
Qed.

(** A prefix [p] of [a ++ b] that is not longer than [a] is a prefix of [a]. *)
Lemma startswith_short (p a b : string) :
  startswith p (a ++ b) = true -> String.length p <= String.length a ->
  startswith p a = true.
Proof.
  revert a; induction p as [|c p IH]; intros [|d a] H L; simpl in *;
    try reflexivity; try lia.
  apply andb_true_iff in H as [Hc Hp].
  rewrite Hc; simpl. apply IH; [assumption | lia].
Qed.


Lemma startswith_length (p s : string) :
  startswith p s = true -> String.length p <= String.length s.
Proof.
  revert s; induction p as [|c p IH]; intros [|d s] H; simpl in *;
    try lia; try discriminate.
  apply andb_true_iff in H as [_ Hp]. apply IH in Hp. lia.
Qed.


Lemma drop_app (p t : string) : drop (String.length p) (p ++ t) = t.
Proof. induction p as [|c p IH]; simpl; [now destruct t | assumption]. Qed.

Lemma take_app (p t : string) : take (String.length p) (p ++ t) = p.
Proof.
  induction p as [|c p IH]; simpl; [now destruct t | now rewrite IH].
Qed.

Lemma take_drop (n : nat) (s : string) : take n s ++ drop n s = s.
Proof.
  revert s; induction n as [|n IH]; intros [|c s]; simpl; try reflexivity.
  now rewrite IH.
Qed.

Lemma length_drop (n : nat) (s : string) :
  String.length (drop n s) = String.length s - n.
Proof.
  revert s; induction n as [|n IH]; intros [|c s]; simpl; try reflexivity; try lia.
  apply IH.
Qed.

Lemma take_all (n : nat) (s : string) :
  String.length s <= n -> take n s = s.
Proof.
  revert s; induction n as [|n IH]; intros [|c s] L; simpl in *;
    try reflexivity; try lia.
  rewrite IH; [reflexivity | lia].
Qed.

End StringFacts.

(** ** Occurrences *)

Section Occurrences.

Lemma contains_cons (x : string) (c : ascii) (s : string) :
  contains (String c s) x = startswith x (String c s) || contains s x.
Proof.
  unfold contains; cbn [index_of].
  destruct (startswith x (String c s)); [reflexivity|].
  now destruct (index_of x s).
Qed.

Lemma contains_empty (x : string) : contains "" x = startswith x "".
Proof. unfold contains; cbn [index_of]. now destruct (startswith x ""). Qed.

Lemma startswith_contains (x s : string) :
  startswith x s = true -> contains s x = true.
Proof.
  intros H. destruct s; [now rewrite contains_empty|].
  now rewrite contains_cons, H.
Qed.

(** An occurrence in [b] is an occurrence in [a ++ b]. *)
Lemma contains_app_l (x a b : string) :
  contains b x = true -> contains (a ++ b) x = true.
Proof.
  intros H; induction a as [|c a IH]; simpl; [assumption|].
  rewrite contains_cons, IH. apply orb_true_r.
Qed.

(** An occurrence in [a] is an occurrence in [a ++ b]. *)
Lemma contains_app_r (x a b : string) :
  contains a x = true -> contains (a ++ b) x = true.
Proof.
  induction a as [|c a IH]; intros H.
  - rewrite contains_empty in H. destruct x; [|discriminate].
    apply startswith_contains. reflexivity.
  - simpl. rewrite contains_cons in *.
    apply orb_true_iff in H as [H|H].
    + change (String c (a ++ b)) with (String c a ++ b).
      now rewrite (startswith_app_r _ _ _ H).
    + rewrite (IH H). apply orb_true_r.
Qed.

Lemma contains_middle (x a b : string) : contains (a ++ x ++ b) x = true.
Proof. apply contains_app_l, startswith_contains, startswith_app. Qed.

(** An occurrence of [x ++ y] is an occurrence of [y]. *)
Lemma contains_app_sub (x y s : string) :
  contains s (x ++ y) = true -> contains s y = true.
Proof.
  induction s as [|c s IH]; intros H.
  - rewrite contains_empty in H. apply startswith_length in H.
    rewrite length_append in H. simpl in H.
    destruct y; [reflexivity | simpl in H; lia].
  - rewrite contains_cons in H. apply orb_true_iff in H as [H|H].
    + apply startswith_split in H. rewrite append_assoc in H. rewrite H.
      apply contains_middle.
    + rewrite contains_cons, (IH H). apply orb_true_r.
Qed.



End Occurrences.

(** ** Replacement of a literal pattern *)

Section Replacement.

Variables (c0 : ascii) (p' r : string).

Let p := String c0 p'.

Lemma sub_from_drop (k : nat) (s : string) :
  Re.sub_from p r k s = Re.sub_from p r 0 (drop k s).
Proof.
  revert k; induction s as [|c s IH]; intros [|k]; try reflexivity.
  cbn [Re.sub_from drop]. apply IH.
Qed.

(** A match at the head is replaced and the scan goes on behind it. *)
Lemma sub_from_match (t : string) :
  Re.sub_from p r 0 (p ++ t) = r ++ Re.sub_from p r 0 t.
Proof.
  pose proof (startswith_app p t) as H.
  unfold p in *. cbn [append Re.sub_from] in *. rewrite H.
  rewrite sub_from_drop. f_equal. f_equal.
  replace (String.length (String c0 p') - 1) with (String.length p')
    by (simpl; lia).
  apply drop_app.
Qed.

(** Without a match at the head the first character is kept. *)
Lemma sub_from_keep (c : ascii) (s : string) :
  startswith p (String c s) = false ->
  Re.sub_from p r 0 (String c s) = String c (Re.sub_from p r 0 s).
Proof. intros H. cbn [Re.sub_from]. now rewrite H. Qed.

(** A string without occurrence of the pattern is not changed. *)
Lemma sub_from_none (s : string) :
  contains s p = false -> Re.sub_from p r 0 s = s.
Proof.
  induction s as [|c s IH]; intros H; [reflexivity|].
  rewrite contains_cons in H. apply orb_false_iff in H as [H1 H2].
  rewrite sub_from_keep, IH; auto.
Qed.





End Replacement.

(** ** A token is cut out where it stands

    The first character of a token, [<], does not come back inside it, so
    two occurrences of a token never overlap. *)

Section Token.

Variables (c0 : ascii) (p' r : string).

Let p := String c0 p'.

Let other (x : ascii) : bool := negb (Ascii.eqb x c0).

Hypothesis first_unique : all_chars other p' = true.

Lemma all_chars_drop (f : ascii -> bool) (n : nat) (s : string) :
  all_chars f s = true -> all_chars f (drop n s) = true.
Proof.
  revert s; induction n as [|n IH]; intros [|c s] H; simpl in *; try assumption.
  apply andb_true_iff in H as [_ H]. now apply IH.
Qed.

Lemma startswith_across (q a x : string) :
  startswith q (a ++ String c0 x) = true -> String.length a < String.length q ->
  all_chars other (drop (String.length a) q) = false.
Proof.
  revert q; induction a as [|e a IH]; intros [|d q] H L; simpl in *; try lia.
  - apply andb_true_iff in H as [H _]. unfold other. now rewrite H.
  - apply andb_true_iff in H as [_ H]. apply IH; [assumption | lia].
Qed.

(** No occurrence of the token starts inside [a] when [a] has none and is
    followed by the token. *)
Lemma no_overlap (a b : string) :
  a <> "" -> contains a p = false -> startswith p (a ++ p ++ b) = false.
Proof.
  intros Ha Hc. destruct (startswith p (a ++ p ++ b)) eqn:E; [|reflexivity].
  destruct (Nat.le_gt_cases (String.length p) (String.length a)) as [L|L].
  - apply startswith_short in E; [|assumption].
    apply startswith_contains in E. congruence.
  - unfold p in E at 2. cbn [append] in E.
    apply startswith_across in E; [|assumption].
    destruct a as [|e a]; [contradiction|].
    unfold p in E. cbn [String.length drop] in E.
    rewrite all_chars_drop in E by assumption. discriminate.
Qed.

Lemma sub_from_token (a b : string) :
  contains a p = false ->
  Re.sub_from p r 0 (a ++ p ++ b) = a ++ r ++ Re.sub_from p r 0 b.
Proof.
  induction a as [|c a IH]; intros H.
  - apply sub_from_match.
  - change (String c a ++ p ++ b) with (String c (a ++ p ++ b)).
    unfold p. rewrite sub_from_keep; fold p.
    + rewrite contains_cons in H. apply orb_false_iff in H as [_ H].
      rewrite IH by assumption. reflexivity.
    + change (String c (a ++ p ++ b)) with (String c a ++ p ++ b).
      apply no_overlap; [discriminate | assumption].
Qed.

End Token.

(** ** White space at the ends *)

Section Strip.

Lemma lstrip_suffix (s : string) : exists a, s = a ++ lstrip s.
Proof.
  induction s as [|c s [a IH]]; [now exists ""|].
  simpl. destruct (isspace c).
  - exists (String c a). simpl. now rewrite <- IH.
  - now exists "".
Qed.

Lemma rstrip_prefix (s : string) : exists b, s = rstrip s ++ b.
Proof.
  induction s as [|c s [b IH]]; [now exists ""|].
  simpl. destruct (rstrip s) as [|d t] eqn:E.
  - destruct (isspace c).
    + now exists (String c s).
    + exists b. simpl. now rewrite IH at 1.
  - exists b. simpl. now rewrite IH at 1.
Qed.


Lemma rstrip_empty (s : string) : rstrip s = "" -> blank s = true.
Proof.
  induction s as [|c s IH]; [reflexivity|].
  simpl. destruct (rstrip s) as [|d t]; [|discriminate].
  destruct (isspace c) eqn:E; [|discriminate].
  intros _. unfold blank in *. simpl. now rewrite E, IH.
Qed.

Lemma rstrip_app (x y : string) :
  blank y = false -> rstrip (x ++ y) = x ++ rstrip y.
Proof.
  intros H. induction x as [|c x IH]; [reflexivity|].
  simpl. rewrite IH. destruct (x ++ rstrip y) as [|d t] eqn:E; [|reflexivity].
  destruct x; [|discriminate]. simpl in E.
  apply rstrip_empty in E. congruence.
Qed.

Lemma lstrip_app (x y : string) :
  blank x = false -> lstrip (x ++ y) = lstrip x ++ y.
Proof.
  induction x as [|c x IH]; intros H; [discriminate|].
  unfold blank in *. simpl in *. destruct (isspace c); [now apply IH|reflexivity].
Qed.

Lemma blank_app_l (x y : string) : blank x = false -> blank (x ++ y) = false.
Proof.
  unfold blank. induction x as [|c x IH]; intros H; [discriminate|].
  simpl in *. destruct (isspace c); [now apply IH | reflexivity].
Qed.

(** Text between two non-blank parts survives [strip]. *)
Lemma strip_middle (x m y : string) :
  blank x = false -> blank y = false ->
  strip (x ++ m ++ y) = lstrip x ++ m ++ rstrip y.
Proof.
  intros Hx Hy. unfold strip.
  rewrite <- append_assoc, rstrip_app by assumption.
  rewrite append_assoc. apply lstrip_app. assumption.
Qed.



End Strip.

(** ** Indexing, slicing and searching *)

Section Primitives.

Lemma snoc_cases (s : string) :
  s = "" \/ exists x c, s = x ++ String c "".
Proof.
  induction s as [|d s [-> | (x & c & ->)]]; [now left | right | right].
  - now exists "", d.
  - now exists (String d x), c.
Qed.

Lemma get_length (x : string) (c : ascii) (y : string) :
  String.get (String.length x) (x ++ String c y) = Some c.
Proof. induction x as [|d x IH]; simpl; [reflexivity | assumption]. Qed.

(** [s[-1]] is the last character of a non-empty string. *)
Lemma getitem_last (x : string) (c : ascii) :
  getitem (x ++ String c "") (-1) = Ok c.
Proof.
  unfold getitem, len. rewrite length_append. cbn [String.length].
  replace (-1 <? 0)%Z with true by reflexivity.
  replace (-1 + Z.of_nat (String.length x + 1))%Z
    with (Z.of_nat (String.length x)) by lia.
  destruct (Z.ltb_spec (Z.of_nat (String.length x)) 0); [lia|].
  destruct (Z.leb_spec (Z.of_nat (String.length x + 1))
                       (Z.of_nat (String.length x))); [lia|].
  cbn [orb]. now rewrite Nat2Z.id, get_length.
Qed.

(** [s[:len(s)-1]] drops the last character. *)
Lemma slice_butlast (x : string) (c : ascii) :
  slice (x ++ String c "") None (Some (len (x ++ String c "") - 1)%Z) = x.
Proof.
  unfold slice, bound, len. rewrite length_append. cbn [String.length drop].
  destruct (Z.ltb_spec (Z.of_nat (String.length x + 1) - 1) 0); [lia|].
  replace (Z.to_nat _) with (String.length x) by lia.
  rewrite Nat.sub_0_r. apply take_app.
Qed.

Lemma lower_app (a b : string) : lower (a ++ b) = lower a ++ lower b.
Proof. induction a as [|c a IH]; simpl; [reflexivity | now rewrite IH]. Qed.

Lemma find_found (s x : string) :
  contains s x = true -> (find s x >? -1)%Z = true.
Proof.
  unfold contains, find. destruct (index_of x s); [|discriminate].
  intros _. apply Z.gtb_lt. lia.
Qed.

Lemma find_missing (s x : string) :
  contains s x = false -> find s x = (-1)%Z.
Proof.
  unfold contains, find. now destruct (index_of x s).
Qed.


(** A prefix that does not use the character [c] does not reach into a
    final [c]. *)
Lemma startswith_snoc (p x : string) (c : ascii) :
  all_chars (fun a => negb (Ascii.eqb a c)) p = true ->
  startswith p (x ++ String c "") = true -> startswith p x = true.
Proof.
  revert x; induction p as [|a p IH]; intros x Hp H; [reflexivity|].
  simpl in Hp. apply andb_true_iff in Hp as [Ha Hp].
  destruct x as [|b x]; simpl in *.
  - apply andb_true_iff in H as [H _]. rewrite H in Ha. discriminate.
  - apply andb_true_iff in H as [Hb H]. rewrite Hb. simpl. now apply IH.
Qed.

(** An occurrence of [p] does not need a final character that [p] does not
    use. *)
Lemma contains_snoc (p x : string) (c : ascii) :
  p <> "" -> all_chars (fun a => negb (Ascii.eqb a c)) p = true ->
  contains (x ++ String c "") p = true -> contains x p = true.
Proof.
  intros Hne Hp. induction x as [|b x IH]; intros H.
  - simpl in H. rewrite contains_cons, contains_empty in H.
    apply orb_true_iff in H as [H|H].
    + apply (startswith_snoc p "" c Hp) in H. now rewrite contains_empty.
    + now rewrite contains_empty.
  - simpl in H. rewrite contains_cons in *. apply orb_true_iff in H as [H|H].
    + change (String b (x ++ String c "")) with (String b x ++ String c "") in H.
      apply startswith_snoc in H; [|assumption]. now rewrite H.
    + rewrite IH by assumption. apply orb_true_r.
Qed.

(** [s[:i]] and [s[i:]] at the seam of a concatenation. *)
Lemma slice_prefix (a b : string) :
  slice (a ++ b) None (Some (Z.of_nat (String.length a))) = a.
Proof.
  unfold slice, bound, len. rewrite length_append.
  destruct (Z.ltb_spec (Z.of_nat (String.length a)) 0); [lia|].
  replace (Z.to_nat _) with (String.length a) by lia.
  cbn [drop]. rewrite Nat.sub_0_r. apply take_app.
Qed.

Lemma slice_suffix (a b : string) :
  slice (a ++ b) (Some (Z.of_nat (String.length a))) None = b.
Proof.
  unfold slice, bound, len. rewrite length_append.
  destruct (Z.ltb_spec (Z.of_nat (String.length a)) 0); [lia|].
  replace (Z.to_nat _) with (String.length a) by lia.
  rewrite drop_app. apply take_all. lia.
Qed.


(** What is left of a prefix [p] of [a ++ b] behind [a]. *)
Lemma startswith_rest (p a b : string) :
  startswith p (a ++ b) = true -> String.length a < String.length p ->
  startswith (drop (String.length a) p) b = true.
Proof.
  revert p; induction a as [|e a IH]; intros [|d p] H L; simpl in *;
    try lia; try assumption.
  apply andb_true_iff in H as [_ H]. apply IH; [assumption | lia].
Qed.

(** The first occurrence in [a ++ b] is the first one in [b], when [a] has
    none and none lies across the seam. *)
Lemma index_of_app (p a b : string) :
  contains a p = false ->
  forallb (fun k => negb (startswith (drop k p) b))
          (List.seq 1 (String.length p - 1)) = true ->
  index_of p (a ++ b)
  = option_map (fun i => String.length a + i) (index_of p b).
Proof.
  intros Ha Hb. rewrite forallb_forall in Hb.
  induction a as [|c a IH].
  - simpl. now destruct (index_of p b).
  - rewrite contains_cons in Ha. apply orb_false_iff in Ha as [Ha1 Ha2].
    cbn [append index_of].
    destruct (startswith p (String c (a ++ b))) eqn:E.
    + exfalso. change (String c (a ++ b)) with (String c a ++ b) in E.
      destruct (Nat.le_gt_cases (String.length p) (String.length (String c a)))
        as [L|L].
      * apply startswith_short in E; [congruence | assumption].
      * apply startswith_rest in E; [|assumption].
        assert (Hk : In (String.length (String c a))
                        (List.seq 1 (String.length p - 1)))
          by (apply in_seq; simpl in *; lia).
        apply Hb in Hk. rewrite E in Hk. discriminate.
    + rewrite (IH Ha2). now destruct (index_of p b).
Qed.


End Primitives.

(** ** The canonicalisers *)

(** C7: [canonicalize_author] reproduces the four reference mappings of its
    docstring: the empty string stays empty, "Bryan Kyle" becomes
    "Kyle, Bryan", and "Bryan Kyle et all" with or without a final period
    becomes "Kyle, Bryan et all". *)
Theorem canonicalize_author_reference :
  canonicalize_author "" = Ok "" /\
  canonicalize_author "Bryan Kyle" = Ok "Kyle, Bryan" /\
  canonicalize_author "Bryan Kyle et all" = Ok "Kyle, Bryan et all" /\
  canonicalize_author "Bryan Kyle et all." = Ok "Kyle, Bryan et all".
Proof. repeat split; reflexivity. Qed.

(** C1: the canonicalisers do raise.  [canonicalize_author] on "." strips
    the period and then indexes the empty string; [canonicalize_title] on a
    lone double quote removes it and then indexes the empty string.  The
    input "et all" is harmless: the marker is put back before the index. *)
Theorem canonicalizers_raise_on_emptied_value :
  canonicalize_author "." = Raise IndexError /\
  canonicalize_title (String quote "") = Raise IndexError /\
  canonicalize_author "et all" = Ok " et all".
Proof. repeat split; reflexivity. Qed.

(** C2: on the string that is one double quote, [canonicalize_title] removes
    the leading quote and then raises [IndexError] at [value[-1]]; it does
    not return the empty string.  On other inputs one leading and one
    trailing quote are removed. *)
Theorem canonicalize_title_lone_quote :
  canonicalize_title (String quote "") = Raise IndexError /\
  canonicalize_title (quoted "Hello World") = Ok "Hello World" /\
  canonicalize_title (quoted (quoted "a")) = Ok (quoted "a") /\
  canonicalize_title (String quote "a") = Ok "a" /\
  canonicalize_title ("a" ++ String quote "") = Ok "a".
Proof. repeat split; reflexivity. Qed.

Lemma ends_in_l (w : string) : w ++ " " ++ "et all" = (w ++ " et al") ++ "l".
Proof. now rewrite append_assoc. Qed.

Lemma period_not_in_marker :
  all_chars (fun a => negb (Ascii.eqb a ".")) "et all" = true.
Proof. reflexivity. Qed.

(** The value after the first period strip still has the marker. *)
Lemma marker_survives_period (x : string) (c : ascii) :
  contains (lower (x ++ String c "")) "et all" = true ->
  contains (lower (if Ascii.eqb c "." then x else x ++ String c "")) "et all"
  = true.
Proof.
  intros H. destruct (Ascii.eqb c ".") eqn:E; [|assumption].
  apply Ascii.eqb_eq in E; subst c. rewrite lower_app in H.
  eapply contains_snoc; [discriminate | apply period_not_in_marker | exact H].
Qed.

(** Whenever the marker is found, case-insensitively, the result ends with
    the lower-case marker after one space. *)
Lemma canonicalize_author_marker (value : string) :
  contains (lower value) "et all" = true ->
  exists t, canonicalize_author value = Ok (t ++ " et all").
Proof.
  intros H. destruct (snoc_cases value) as [-> | (x & c & ->)];
    [discriminate|].
  apply marker_survives_period in H.
  unfold canonicalize_author.
  replace (truthy (x ++ String c "")) with true by (now destruct x).
  cbn [negb]. rewrite getitem_last. cbn [bind]. rewrite slice_butlast.
  cbv zeta. rewrite (find_found _ _ H). cbv iota beta. cbn [truthy].
  match goal with
  | |- context [strip ?v ++ " " ++ "et all"] => remember (strip v) as w
  end.
  rewrite ends_in_l, getitem_last. cbn [bind].
  replace (Ascii.eqb "l" ".") with false by reflexivity.
  exists w. now rewrite append_assoc.
Qed.

(** C10: when the marker "et all" is in the input in a form that is not all
    lower case (it is found in the lowered input, not in the input itself),
    the result of [canonicalize_author] ends with the lower-case text
    " et all". *)
Theorem et_all_reappended_lowercase (value : string) :
  contains (lower value) "et all" = true ->
  contains value "et all" = false ->
  exists t, canonicalize_author value = Ok (t ++ " et all").
Proof. intros H _. now apply canonicalize_author_marker. Qed.

Lemma et_all_reappended_lowercase_witness :
  contains (lower "Bryan Kyle Et All") "et all" = true /\
  contains "Bryan Kyle Et All" "et all" = false /\
  exists t, canonicalize_author "Bryan Kyle Et All" = Ok (t ++ " et all").
Proof.
  split; [reflexivity | split; [reflexivity|]].
  apply (et_all_reappended_lowercase "Bryan Kyle Et All"); reflexivity.
Defined.

Lemma endswith_snoc (x : string) (c : ascii) :
  endswith (x ++ String c "") (String c "") = true.
Proof.
  induction x as [|d x IH]; cbn [append endswith].
  - now rewrite String.eqb_refl.
  - rewrite IH. apply orb_true_r.
Qed.








(** ** The substitution step *)

Lemma format_token (var : string) : format "<%s>" [var] = Ok (token var).
Proof. reflexivity. Qed.

(** What the step does once the text to insert is known. *)
Lemma substitute_inserts (entry var text w r : string) :
  wrap var text = Ok w ->
  Re.expand (token var) None w = Ok r ->
  substitute entry var text = Ok (strip (Re.sub_from (token var) r 0 entry)).
Proof.
  intros Hw Hr. unfold substitute. rewrite Hw. cbn [bind].
  rewrite format_token. cbn [bind]. unfold Re.sub. rewrite Hr. reflexivity.
Qed.

(** A name outside the registry raises [KeyError] before anything else. *)
Lemma substitute_unknown (entry var text : string) :
  VARS_getitem var = Raise (KeyError var) ->
  substitute entry var text = Raise (KeyError var) /\
  get_next_input_or_insert entry (Some var) (Some text) = Raise (KeyError var).
Proof.
  intros H. unfold get_next_input_or_insert, substitute, wrap.
  rewrite H. split; reflexivity.
Qed.

(** C6: from the raw template, the prompts come in the order author, title,
    pubdate, ref, and the answers "Bryan Kyle", "Test" in double quotes,
    "01 Jan 2020" and "http://example.com" give the entry
    Kyle, Bryan. "Test" 01 Jan 2020. <<http://example.com>> for insertion. *)
Theorem full_template_scenario :
  (u <- run "" ;;
   answer ["Bryan Kyle"; quoted "Test"; "01 Jan 2020"; "http://example.com"] u)
  = Ok (["author"; "title"; "pubdate"; "ref"],
        insert ("Kyle, Bryan. " ++ quoted "Test" ++
                " 01 Jan 2020. <<http://example.com>>")).
Proof. reflexivity. Qed.

(** C5: the wrapped value is not inserted as literal text.  It is the
    replacement template of [re.sub]: in the reference C:\temp the
    backslash and the t become a TAB, a doubled backslash becomes one, and
    a backslash before a digit is a group reference, which raises. *)
Theorem substitute_expands_escapes :
  substitute TEMPLATE "ref" "C:\temp"
    = Ok ("<author> <title> <pubdate> <<C:" ++ String "009" "emp>>") /\
  substitute TEMPLATE "ref" "C:\\temp"
    = Ok "<author> <title> <pubdate> <<C:\temp>>" /\
  substitute TEMPLATE "pubdate" "\1" = Raise re_error.
Proof. repeat split; reflexivity. Qed.

(** C9: with a valid name the step can fail.  For author and the value "."
    the filter [canonicalize_author] raises [IndexError]; for title and a
    lone double quote [canonicalize_title] does; for any name a value with
    a backslash before a digit makes [re.sub] raise.  A name outside the
    registry raises [KeyError]. *)
Theorem substitute_fails_for_valid_name :
  substitute TEMPLATE "author" "." = Raise IndexError /\
  get_next_input_or_insert TEMPLATE (Some "author") (Some ".")
    = Raise IndexError /\
  substitute TEMPLATE "title" (String quote "") = Raise IndexError /\
  substitute TEMPLATE "ref" "\1" = Raise re_error /\
  substitute TEMPLATE "publisher" "x" = Raise (KeyError "publisher").
Proof. repeat split; reflexivity. Qed.

(** C3, counterexample: an empty value for pubdate in the raw template
    leaves the two spaces that surrounded the token next to each other. *)
Lemma empty_pubdate_leaves_double_space :
  substitute TEMPLATE "pubdate" "" = Ok "<author> <title>  <ref>" /\
  contains "<author> <title>  <ref>" "  " = true.
Proof. split; reflexivity. Qed.

Lemma pubdate_first_unique :
  all_chars (fun x => negb (Ascii.eqb x "<")) "pubdate>" = true.
Proof. reflexivity. Qed.

(** C3 (amended): an empty value for pubdate cuts the token out of the
    entry and trims the ends of the entry only.  For an entry [a<pubdate>b]
    with no other occurrence of the token the result is [strip (a ++ b)];
    when [a] ends and [b] starts with a space, with something not blank
    further out on both sides, these two spaces stay side by side. *)
Theorem empty_pubdate_trims_ends_only (a b : string) :
  contains a "<pubdate>" = false ->
  contains b "<pubdate>" = false ->
  substitute (a ++ "<pubdate>" ++ b) "pubdate" "" = Ok (strip (a ++ b)) /\
  forall x y, a = x ++ " " -> b = " " ++ y ->
              blank x = false -> blank y = false ->
              strip (a ++ b) = lstrip x ++ "  " ++ rstrip y.
Proof.
  intros Ha Hb. split.
  - rewrite (substitute_inserts _ "pubdate" "" "" "") by reflexivity.
    change (token "pubdate") with (String "<" "pubdate>").
    rewrite sub_from_token by (exact pubdate_first_unique || assumption).
    rewrite sub_from_none by assumption. reflexivity.
  - intros x y -> -> Hx Hy. rewrite append_assoc.
    change (" " ++ " " ++ y) with ("  " ++ y).
    apply strip_middle; assumption.
Qed.

Lemma empty_pubdate_trims_ends_only_witness :
  substitute ("<author> <title> " ++ "<pubdate>" ++ " <ref>") "pubdate" ""
    = Ok (strip ("<author> <title> " ++ " <ref>")) /\
  forall x y, "<author> <title> " = x ++ " " -> " <ref>" = " " ++ y ->
              blank x = false -> blank y = false ->
              strip ("<author> <title> " ++ " <ref>")
              = lstrip x ++ "  " ++ rstrip y.
Proof.
  apply (empty_pubdate_trims_ends_only "<author> <title> " " <ref>");
    reflexivity.
Defined.




(** ** How far the defects reach *)

Lemma getitem_nonempty (s : string) :
  s <> "" -> exists c, getitem s (-1) = Ok c.
Proof.
  intros H. destruct (snoc_cases s) as [-> | (x & c & ->)]; [contradiction|].
  exists c. apply getitem_last.
Qed.

Lemma app_nonempty (a b : string) : b <> "" -> a ++ b <> "".
Proof. intros H E. destruct a; [contradiction | discriminate]. Qed.

(** [canonicalize_title] raises on the lone double quote only. *)
Lemma canonicalize_title_returns (value : string) :
  value <> String quote "" -> exists r, canonicalize_title value = Ok r.
Proof.
  intros H. destruct value as [|c x]; [now exists ""|].
  unfold canonicalize_title. cbn [truthy negb].
  replace (getitem (String c x) 0) with (Ok c) by reflexivity. cbn [bind].
  remember (if Ascii.eqb c quote then slice (String c x) (Some 1%Z) None
            else String c x) as v eqn:Hv.
  assert (Hne : v <> "").
  { subst v. destruct (Ascii.eqb c quote) eqn:E; [|discriminate].
    apply Ascii.eqb_eq in E; subst c.
    change (slice (String quote x) (Some 1%Z) None)
      with (slice (String quote "" ++ x)
                  (Some (Z.of_nat (String.length (String quote "")))) None).
    rewrite slice_suffix.
    intros ->. now apply H. }
  destruct (getitem_nonempty v Hne) as [d Hd]. rewrite Hd. cbn [bind].
  eexists; reflexivity.
Qed.

(** [canonicalize_author] raises on the lone period only. *)
Lemma canonicalize_author_returns (value : string) :
  value <> "." -> exists r, canonicalize_author value = Ok r.
Proof.
  intros H. destruct (contains (lower value) "et all") eqn:Hm.
  { destruct (canonicalize_author_marker value Hm) as [t Ht]. eauto. }
  destruct (snoc_cases value) as [-> | (x & c & ->)]; [now exists ""|].
  unfold canonicalize_author.
  replace (truthy (x ++ String c "")) with true by (now destruct x).
  cbn [negb]. rewrite getitem_last. cbn [bind]. rewrite slice_butlast.
  remember (if Ascii.eqb c "." then x else x ++ String c "") as v eqn:Hv.
  assert (Hne : v <> "").
  { subst v. destruct (Ascii.eqb c ".") eqn:E.
    - apply Ascii.eqb_eq in E; subst c. intros ->. now apply H.
    - apply app_nonempty. discriminate. }
  assert (Hl : contains (lower v) "et all" = false).
  { subst v. destruct (Ascii.eqb c "."); [|assumption].
    rewrite lower_app in Hm.
    destruct (contains (lower x) "et all") eqn:E; [|reflexivity].
    now rewrite (contains_app_r _ _ _ E) in Hm. }
  cbv zeta. rewrite (find_missing _ _ Hl).
  replace (-1 >? -1)%Z with false by reflexivity. cbv iota beta.
  cbn [truthy].
  match goal with
  | |- context [getitem ?w (-1)] => assert (Hw : w <> "")
  end.
  { destruct (find v "," =? -1)%Z; [|assumption].
    destruct (find v " " >? 0)%Z; [|assumption].
    apply app_nonempty. discriminate. }
  match goal with
  | |- context [getitem ?w (-1)] =>
      destruct (getitem_nonempty w Hw) as [d Hd]; rewrite Hd
  end.
  cbn [bind]. eexists; reflexivity.
Qed.

(** The pair of the reordering is what the format ["%s, %s"] gives. *)
Lemma format_last_first (last first : string) :
  format "%s, %s" [last; first] = Ok (last ++ ", " ++ first).
Proof.
  cbn [format Ascii.eqb Bool.eqb bind].
  now rewrite append_empty_r.
Qed.

(** A template without backslash stands for itself. *)
Lemma expand_literal (m w : string) :
  all_chars (fun c => negb (Ascii.eqb c "\")) w = true ->
  Re.expand m None w = Ok w.
Proof.
  induction w as [|c w IH]; intros H; [reflexivity|].
  simpl in H. apply andb_true_iff in H as [Hc Hw].
  cbn [Re.expand]. rewrite Hc, (IH Hw). reflexivity.
Qed.

(** Without a backslash in the wrapped value the insertion is literal. *)
Lemma substitute_literal (entry var text w : string) :
  wrap var text = Ok w ->
  all_chars (fun c => negb (Ascii.eqb c "\")) w = true ->
  substitute entry var text = Ok (strip (Re.sub_from (token var) w 0 entry)).
Proof.
  intros Hw Hb. apply substitute_inserts with (w := w); [assumption|].
  now apply expand_literal.
Qed.

(** * Further properties of the canonicalisers *)

(** X1: [canonicalize_author] raises on exactly one input, the string that
    is one period; every other string gets a result. *)
Theorem canonicalize_author_raises_iff (value : string) :
  canonicalize_author value = Raise IndexError <-> value = ".".
Proof.
  split; [|intros ->; reflexivity].
  intros H. destruct (string_dec value ".") as [E|E]; [assumption|].
  destruct (canonicalize_author_returns value E) as [r Hr]. congruence.
Qed.

(** X2: [canonicalize_title] raises on exactly one input, the string that is
    one double quote; every other string gets a result. *)
Theorem canonicalize_title_raises_iff (value : string) :
  canonicalize_title value = Raise IndexError <-> value = String quote "".
Proof.
  split; [|intros ->; reflexivity].
  intros H. destruct (string_dec value (String quote "")) as [E|E];
    [assumption|].
  destruct (canonicalize_title_returns value E) as [r Hr]. congruence.
Qed.

(** [s[:-1]] drops the last character. *)
Lemma slice_drop_last (x : string) (c : ascii) :
  slice (x ++ String c "") None (Some (-1)%Z) = x.
Proof.
  unfold slice, bound, len. rewrite length_append. cbn [String.length drop].
  replace (-1 <? 0)%Z with true by reflexivity.
  replace (Z.to_nat _) with (String.length x) by lia.
  rewrite Nat.sub_0_r. apply take_app.
Qed.

(** [s[1:]] drops the first character. *)
Lemma slice_drop_first (c : ascii) (x : string) :
  slice (String c x) (Some 1%Z) None = x.
Proof.
  change (slice (String c x) (Some 1%Z) None)
    with (slice (String c "" ++ x)
                (Some (Z.of_nat (String.length (String c "")))) None).
  apply slice_suffix.
Qed.

(** X3: [canonicalize_title] undoes the title template: a text put between
    double quotes comes back as it was, whatever it contains. *)
Theorem canonicalize_title_quoted (s : string) :
  canonicalize_title (quoted s) = Ok s.
Proof.
  unfold quoted, canonicalize_title. cbn [append truthy negb].
  replace (getitem (String quote (s ++ String quote "")) 0) with (Ok quote)
    by reflexivity.
  cbn [bind]. rewrite Ascii.eqb_refl, slice_drop_first, getitem_last.
  cbn [bind]. now rewrite Ascii.eqb_refl, slice_drop_last.
Qed.

Lemma canonicalize_title_factor (value r : string) :
  canonicalize_title value = Ok r ->
  exists a b, value = a ++ r ++ b /\
              (a = "" \/ a = String quote "") /\
              (b = "" \/ b = String quote "").
Proof.
  destruct value as [|c x].
  { intros H. injection H as <-. exists "", "". auto. }
  unfold canonicalize_title. cbn [truthy negb].
  replace (getitem (String c x) 0) with (Ok c) by reflexivity. cbn [bind].
  destruct (Ascii.eqb c quote) eqn:E.
  - apply Ascii.eqb_eq in E; subst c. rewrite slice_drop_first.
    destruct (snoc_cases x) as [-> | (y & d & ->)]; [discriminate|].
    rewrite getitem_last. cbn [bind].
    destruct (Ascii.eqb d quote) eqn:F; intros H; injection H as <-.
    + apply Ascii.eqb_eq in F; subst d. rewrite slice_drop_last.
      exists (String quote ""), (String quote ""). auto.
    + exists (String quote ""), "". rewrite append_empty_r. auto.
  - destruct (snoc_cases (String c x)) as [? | (y & d & Hy)]; [discriminate|].
    rewrite Hy, getitem_last. cbn [bind].
    destruct (Ascii.eqb d quote) eqn:F; intros H; injection H as <-.
    + apply Ascii.eqb_eq in F; subst d. rewrite slice_drop_last.
      exists "", (String quote ""). auto.
    + exists "", "". rewrite append_empty_r. auto.
Qed.

(** X4: whatever [canonicalize_title] returns is its argument without at most
    one double quote in front and at most one at the end; nothing else is
    removed or changed. *)
Theorem canonicalize_title_removes_end_quotes (value r : string) :
  canonicalize_title value = Ok r ->
  exists a b, value = a ++ r ++ b /\
              (a = "" \/ a = String quote "") /\
              (b = "" \/ b = String quote "").
Proof. apply canonicalize_title_factor. Qed.

Lemma canonicalize_title_removes_end_quotes_witness :
  exists a b, quoted "Hello World" = a ++ "Hello World" ++ b /\
              (a = "" \/ a = String quote "") /\
              (b = "" \/ b = String quote "").
Proof.
  apply (canonicalize_title_removes_end_quotes (quoted "Hello World")).
  reflexivity.
Defined.

Lemma getitem_not_period (v : string) :
  v <> "" -> endswith v "." = false ->
  exists c, getitem v (-1) = Ok c /\ Ascii.eqb c "." = false.
Proof.
  intros Hv He. destruct (snoc_cases v) as [-> | (x & c & ->)];
    [contradiction|].
  exists c. split; [apply getitem_last|].
  destruct (Ascii.eqb c ".") eqn:E; [|reflexivity].
  apply Ascii.eqb_eq in E; subst c. now rewrite endswith_snoc in He.
Qed.

(** X5: one final period makes no difference: for a non-empty value that
    does not end with a period, the value with a period added has the same
    result, or the same exception. *)
Theorem canonicalize_author_final_period (value : string) :
  value <> "" -> endswith value "." = false ->
  canonicalize_author (value ++ ".") = canonicalize_author value.
Proof.
  intros Hv He.
  destruct (getitem_not_period value Hv He) as (c & Hc & E).
  unfold canonicalize_author.
  replace (truthy (value ++ ".")) with true by (now destruct value).
  replace (truthy value) with true by (now destruct value).
  cbn [negb]. rewrite (getitem_last value "."), Hc. cbn [bind].
  rewrite slice_butlast, E.
  replace (Ascii.eqb "." ".") with true by reflexivity.
  reflexivity.
Qed.

Lemma canonicalize_author_final_period_witness :
  canonicalize_author ("Bryan Kyle et all" ++ ".")
  = canonicalize_author "Bryan Kyle et all".
Proof.
  apply (canonicalize_author_final_period "Bryan Kyle et all");
    [discriminate | reflexivity].
Defined.

Lemma find_space_after (first rest : string) :
  contains first " " = false ->
  find (first ++ " " ++ rest) " " = Z.of_nat (String.length first).
Proof.
  intros H. unfold find. rewrite index_of_app; [| assumption | reflexivity].
  cbn [append index_of startswith Ascii.eqb Bool.eqb andb option_map].
  now rewrite Nat.add_0_r.
Qed.

(** The last character of [l ++ ", " ++ f] is not a period when [f] does not
    end with one. *)
Lemma reordered_not_period (l f : string) :
  endswith f "." = false ->
  exists c, getitem (l ++ ", " ++ f) (-1) = Ok c /\ Ascii.eqb c "." = false.
Proof.
  intros He. destruct (snoc_cases f) as [-> | (y & d & ->)].
  - exists " "%char. split; [|reflexivity].
    replace (l ++ ", " ++ "") with ((l ++ ",") ++ " ")
      by (now rewrite append_assoc).
    apply getitem_last.
  - exists d. split.
    + replace (l ++ ", " ++ y ++ String d "")
        with ((l ++ ", " ++ y) ++ String d "")
        by (now rewrite !append_assoc).
      apply getitem_last.
    + destruct (Ascii.eqb d ".") eqn:E; [|reflexivity].
      apply Ascii.eqb_eq in E; subst d. now rewrite endswith_snoc in He.
Qed.

(** X6: the reordering.  A value [first rest], cut at its first space, with
    no comma, no marker and no final period (nor one at the end of the first
    part) becomes the stripped rest, a comma and a space, and the stripped
    first part. *)
Theorem canonicalize_author_reorders (first rest : string) :
  first <> "" ->
  contains first " " = false ->
  contains (first ++ " " ++ rest) "," = false ->
  contains (lower (first ++ " " ++ rest)) "et all" = false ->
  endswith (first ++ " " ++ rest) "." = false ->
  endswith (strip first) "." = false ->
  canonicalize_author (first ++ " " ++ rest)
  = Ok (strip (" " ++ rest) ++ ", " ++ strip first).
Proof.
  intros Hf Hs Hc Hm He Hp.
  assert (Hv : first ++ " " ++ rest <> "") by (now destruct first).
  destruct (getitem_not_period _ Hv He) as (c & Hg & E).
  destruct (reordered_not_period (strip (" " ++ rest)) (strip first) Hp)
    as (d & Hd & F).
  unfold canonicalize_author.
  replace (truthy (first ++ " " ++ rest)) with true by (now destruct first).
  cbn [negb]. rewrite Hg. cbn [bind]. rewrite E.
  cbv zeta. rewrite (find_missing _ _ Hm).
  replace (-1 >? -1)%Z with false by reflexivity. cbv iota beta.
  rewrite (find_missing _ _ Hc).
  replace (-1 =? -1)%Z with true by reflexivity.
  rewrite (find_space_after first rest Hs).
  replace (Z.of_nat (String.length first) >? 0)%Z with true
    by (symmetry; apply Z.gtb_lt; destruct first; [contradiction | simpl; lia]).
  rewrite slice_prefix, slice_suffix. cbn [truthy].
  rewrite Hd. cbn [bind]. now rewrite F.
Qed.

Lemma canonicalize_author_reorders_witness :
  canonicalize_author ("Bryan" ++ " " ++ "Kyle")
  = Ok (strip (" " ++ "Kyle") ++ ", " ++ strip "Bryan").
Proof.
  apply (canonicalize_author_reorders "Bryan" "Kyle");
    [discriminate | reflexivity ..].
Defined.

(** X7: no reordering without a space behind the first character.  A value
    without comma, marker and final period whose first space, if it has one,
    is its first character is returned as it is: a single word, but also a
    name typed with a space in front. *)
Theorem canonicalize_author_keeps (value : string) :
  value <> "" ->
  contains value "," = false ->
  (find value " " >? 0)%Z = false ->
  contains (lower value) "et all" = false ->
  endswith value "." = false ->
  canonicalize_author value = Ok value.
Proof.
  intros Hv Hc Hs Hm He.
  destruct (getitem_not_period _ Hv He) as (c & Hg & E).
  unfold canonicalize_author.
  replace (truthy value) with true by (now destruct value).
  cbn [negb]. rewrite Hg. cbn [bind]. rewrite E.
  cbv zeta. rewrite (find_missing _ _ Hm).
  replace (-1 >? -1)%Z with false by reflexivity. cbv iota beta.
  rewrite (find_missing _ _ Hc).
  replace (-1 =? -1)%Z with true by reflexivity.
  rewrite Hs. cbn [truthy]. rewrite Hg. cbn [bind]. now rewrite E.
Qed.

Lemma canonicalize_author_keeps_witness :
  canonicalize_author " Bryan Kyle" = Ok " Bryan Kyle".
Proof.
  apply (canonicalize_author_keeps " Bryan Kyle");
    [discriminate | reflexivity ..].
Defined.

(** * Further properties of the substitution step *)

Lemma VARS_getitem_unknown (var : string) :
  ~ In var Re.names -> VARS_getitem var = Raise (KeyError var).
Proof.
  intros H. unfold VARS_getitem, VARS. cbn [List.find fst snd].
  destruct (String.eqb_spec "author" var) as [<-|_];
    [exfalso; apply H; simpl; auto|].
  destruct (String.eqb_spec "title" var) as [<-|_];
    [exfalso; apply H; simpl; auto|].
  destruct (String.eqb_spec "pubdate" var) as [<-|_];
    [exfalso; apply H; simpl; auto|].
  destruct (String.eqb_spec "ref" var) as [<-|_];
    [exfalso; apply H; simpl; auto|].
  reflexivity.
Qed.

Lemma VARS_getitem_known (var : string) :
  In var Re.names -> exists v, VARS_getitem var = Ok v.
Proof.
  intros [<- | [<- | [<- | [<- | []]]]]; eexists; reflexivity.
Qed.

(** X8: a name that is not one of author, title, pubdate, ref makes the call
    raise [KeyError] with that name, whatever the entry and the text are:
    the lookup in [VARS] comes before everything else. *)
Theorem unknown_name_raises_KeyError
  (entry var : string) (text : option string) :
  ~ In var Re.names ->
  get_next_input_or_insert entry (Some var) text = Raise (KeyError var).
Proof.
  intros H. unfold get_next_input_or_insert, substitute, wrap.
  now rewrite (VARS_getitem_unknown var H).
Qed.

Lemma unknown_name_raises_KeyError_witness :
  get_next_input_or_insert TEMPLATE (Some "publisher") (Some "\1")
  = Raise (KeyError "publisher").
Proof.
  apply (unknown_name_raises_KeyError TEMPLATE "publisher" (Some "\1")).
  simpl. intros [H | [H | [H | [H | []]]]]; discriminate.
Defined.

Lemma token_at_some (s n : string) :
  Re.token_at s = Some n ->
  In n Re.names /\ startswith (token n) s = true.
Proof. intros H. apply find_some in H. exact H. Qed.

Lemma token_at_none (s n : string) :
  Re.token_at s = None -> In n Re.names -> startswith (token n) s = false.
Proof. intros H Hn. exact (find_none _ _ H n Hn). Qed.

(** The first name that [findall] reports is a registered name whose token
    is in the string. *)
Lemma findall_head (s v : string) (vs : list string) :
  Re.findall s = v :: vs ->
  In v Re.names /\ contains s (token v) = true.
Proof.
  unfold Re.findall. induction s as [|c s IH]; [discriminate|].
  cbn [Re.findall_from]. destruct (Re.token_at (String c s)) as [n|] eqn:E.
  - intros H. injection H as <- _. apply token_at_some in E as [Hn Hs].
    split; [assumption | now apply startswith_contains].
  - intros H. destruct (IH H) as [Hn Hc]. split; [assumption|].
    rewrite contains_cons, Hc. apply orb_true_r.
Qed.

(** When [findall] reports nothing, no token of the four is in the string. *)
Lemma findall_nil (s n : string) :
  Re.findall s = [] -> In n Re.names -> contains s (token n) = false.
Proof.
  unfold Re.findall. intros H Hn. induction s as [|c s IH].
  - reflexivity.
  - cbn [Re.findall_from] in H.
    destruct (Re.token_at (String c s)) as [m|] eqn:E; [discriminate|].
    rewrite contains_cons, (token_at_none _ _ E Hn), (IH H). reflexivity.
Qed.

(** X9: a prompt is always for a registered variable whose token is in the
    entry handed to the callback, and its caption is the one of [VARS]. *)
Theorem prompt_is_for_open_token
  (entry : string) (var text : option string) (cap e v : string) :
  get_next_input_or_insert entry var text = Ok (show_input_panel cap e v) ->
  In v Re.names /\ contains e (token v) = true /\
  exists V, VARS_getitem v = Ok V /\ caption V = cap.
Proof.
  unfold get_next_input_or_insert.
  destruct (match var with
            | Some var0 => substitute entry var0 _
            | None => Ok entry
            end) as [e'|x]; cbn [bind]; [|discriminate].
  destruct (Re.findall e') as [|v' vs] eqn:F; [discriminate|].
  destruct (findall_head _ _ _ F) as [Hn Hc].
  destruct (VARS_getitem_known v' Hn) as [V HV]. rewrite HV. cbn [bind].
  intros H. injection H as <- <- <-. eauto.
Qed.

Lemma prompt_is_for_open_token_witness :
  In "author" Re.names /\ contains TEMPLATE (token "author") = true /\
  exists V, VARS_getitem "author" = Ok V /\ caption V = "Author (Last, First)".
Proof.
  apply (prompt_is_for_open_token TEMPLATE None None). reflexivity.
Defined.

(** X10: an entry is handed to the editor for insertion only when none of
    the four tokens is left in it. *)
Theorem inserted_entry_has_no_token
  (entry : string) (var text : option string) (e n : string) :
  get_next_input_or_insert entry var text = Ok (insert e) ->
  In n Re.names -> contains e (token n) = false.
Proof.
  unfold get_next_input_or_insert.
  destruct (match var with
            | Some var0 => substitute entry var0 _
            | None => Ok entry
            end) as [e'|x]; cbn [bind]; [|discriminate].
  destruct (Re.findall e') as [|v' vs] eqn:F.
  - intros H Hn. injection H as <-. now apply findall_nil.
  - destruct (VARS_getitem v'); cbn [bind]; discriminate.
Qed.

Lemma inserted_entry_has_no_token_witness :
  contains "Kyle, Bryan. <<http://example.com>>" (token "ref") = false.
Proof.
  apply (inserted_entry_has_no_token
           "Kyle, Bryan. <ref>" (Some "ref") (Some "http://example.com")).
  - reflexivity.
  - simpl. auto.
Defined.

(** X11: without a variable the call never raises: it only scans the entry,
    and every name the scan can report is a key of [VARS]. *)
Theorem scan_never_raises (entry : string) (text : option string) :
  exists u, get_next_input_or_insert entry None text = Ok u.
Proof.
  unfold get_next_input_or_insert. cbn [bind].
  destruct (Re.findall entry) as [|v vs] eqn:F; [eauto|].
  destruct (findall_head _ _ _ F) as [Hn _].
  destruct (VARS_getitem_known v Hn) as [V HV]. rewrite HV. cbn [bind]. eauto.
Qed.

Lemma names_first_unique (var : string) :
  In var Re.names ->
  all_chars (fun x => negb (Ascii.eqb x "<")) (var ++ ">") = true.
Proof. intros [<- | [<- | [<- | [<- | []]]]]; reflexivity. Qed.

Lemma substitute_in_place (var a b text w : string) :
  In var Re.names ->
  wrap var text = Ok w ->
  all_chars (fun c => negb (Ascii.eqb c "\")) w = true ->
  contains a (token var) = false ->
  contains b (token var) = false ->
  substitute (a ++ token var ++ b) var text = Ok (strip (a ++ w ++ b)).
Proof.
  intros Hn Hw Hb Ha Hb'.
  rewrite (substitute_literal _ var text w Hw Hb).
  change (token var) with (String "<" (var ++ ">")) in *.
  rewrite sub_from_token by (now apply names_first_unique || assumption).
  now rewrite sub_from_none.
Qed.

(** X12: the token is replaced where it stands and the rest of the entry is
    kept.  For an entry [a <name> b] with no other occurrence of the token
    and a wrapped value [w] without backslash, the step returns [a w b]
    stripped at its two ends. *)
Theorem substitute_replaces_in_place (var a b text w : string) :
  In var Re.names ->
  wrap var text = Ok w ->
  all_chars (fun c => negb (Ascii.eqb c "\")) w = true ->
  contains a (token var) = false ->
  contains b (token var) = false ->
  substitute (a ++ token var ++ b) var text = Ok (strip (a ++ w ++ b)).
Proof. apply substitute_in_place. Qed.

Lemma substitute_replaces_in_place_witness :
  substitute ("Kyle, Bryan. " ++ token "title" ++ " <pubdate> <ref>")
             "title" (quoted "Test")
  = Ok (strip ("Kyle, Bryan. " ++ quoted "Test" ++ " <pubdate> <ref>")).
Proof.
  apply (substitute_replaces_in_place
           "title" "Kyle, Bryan. " " <pubdate> <ref>" (quoted "Test")
           (quoted "Test")); try reflexivity.
  simpl. auto.
Defined.

(** ** Characters that pass through *)

Section Preserved.

Variable f : ascii -> bool.

Lemma all_chars_app (a b : string) :
  all_chars f (a ++ b) = all_chars f a && all_chars f b.
Proof.
  induction a as [|c a IH]; simpl; [reflexivity|].
  now rewrite IH, andb_assoc.
Qed.

Lemma all_chars_take (n : nat) (s : string) :
  all_chars f s = true -> all_chars f (take n s) = true.
Proof.
  intros H. rewrite <- (take_drop n s), all_chars_app in H.
  now apply andb_true_iff in H.
Qed.

Lemma all_chars_slice (s : string) (lo hi : option Z) :
  all_chars f s = true -> all_chars f (slice s lo hi) = true.
Proof.
  intros H. unfold slice. now apply all_chars_take, all_chars_drop.
Qed.

Lemma all_chars_strip (s : string) :
  all_chars f s = true -> all_chars f (strip s) = true.
Proof.
  intros H. unfold strip.
  destruct (rstrip_prefix s) as [b Hb].
  destruct (lstrip_suffix (rstrip s)) as [a Ha].
  rewrite Hb, Ha, !all_chars_app in H.
  apply andb_true_iff in H as [H _]. now apply andb_true_iff in H.
Qed.

Hypothesis marker_ok : all_chars f ", et all" = true.

Ltac chars :=
  repeat first
    [ assumption
    | rewrite all_chars_app
    | apply andb_true_iff; split
    | apply all_chars_strip
    | apply all_chars_slice ].

(** [canonicalize_author] puts no character into its result that was not in
    the value, apart from those of ", " and " et all". *)
Lemma canonicalize_author_chars (value r : string) :
  all_chars f value = true ->
  canonicalize_author value = Ok r -> all_chars f r = true.
Proof.
  intros Hv. unfold canonicalize_author.
  destruct (truthy value); cbn [negb];
    [|intros H; injection H as <-; reflexivity].
  destruct (getitem value (-1)) as [c|]; cbn [bind]; [|discriminate].
  set (v1 := if Ascii.eqb c "." then _ else value).
  assert (H1 : all_chars f v1 = true).
  { subst v1. destruct (Ascii.eqb c "."); [now apply all_chars_slice | assumption]. }
  clearbody v1. cbv zeta.
  assert (Hm : all_chars f "et all" = true /\ all_chars f ", " = true /\
               all_chars f " " = true).
  { cbn in marker_ok |- *. repeat (apply andb_true_iff in marker_ok as [? marker_ok]).
    repeat split; repeat (apply andb_true_iff; split); auto. }
  destruct Hm as (Hm1 & Hm2 & Hm3).
  destruct (find (lower v1) "et all" >? -1)%Z; cbv iota beta.
  - match goal with
    | |- context [strip ?v ++ " " ++ "et all"] =>
        assert (H2 : all_chars f (strip v ++ " " ++ "et all") = true);
        [|set (v2 := strip v ++ " " ++ "et all") in *; clearbody v2]
    end.
    { destruct (find _ "," =? -1)%Z;
        [destruct (find _ " " >? 0)%Z|]; chars. }
    cbn [truthy].
    destruct (getitem v2 (-1)) as [d|]; cbn [bind]; [|discriminate].
    intros H; injection H as <-.
    destruct (Ascii.eqb d "."); [now apply all_chars_slice | assumption].
  - match goal with
    | |- context [getitem ?v (-1)] =>
        assert (H2 : all_chars f v = true);
        [|set (v2 := v) in *; clearbody v2]
    end.
    { cbn [truthy].
      destruct (find v1 "," =? -1)%Z;
        [destruct (find v1 " " >? 0)%Z|]; chars. }
    destruct (getitem v2 (-1)) as [d|]; cbn [bind]; [|discriminate].
    intros H; injection H as <-.
    destruct (Ascii.eqb d "."); [now apply all_chars_slice | assumption].
Qed.

(** [canonicalize_title] puts no new character into its result. *)
Lemma canonicalize_title_chars (value r : string) :
  all_chars f value = true ->
  canonicalize_title value = Ok r -> all_chars f r = true.
Proof.
  intros Hv H.
  apply canonicalize_title_factor in H as (a & b & -> & _).
  rewrite !all_chars_app in Hv.
  apply andb_true_iff in Hv as [_ Hv]. now apply andb_true_iff in Hv.
Qed.

End Preserved.

(** The filter and the template of a registered variable keep a value free
    of backslashes, and fail on two values only. *)
Lemma wrap_returns (var text : string) :
  In var Re.names ->
  all_chars (fun c => negb (Ascii.eqb c "\")) text = true ->
  ~ (var = "author" /\ text = ".") ->
  ~ (var = "title" /\ text = String quote "") ->
  exists w, wrap var text = Ok w /\
            all_chars (fun c => negb (Ascii.eqb c "\")) w = true.
Proof.
  intros Hn Ht Ha Hq. unfold wrap.
  destruct Hn as [<- | [<- | [<- | [<- | []]]]];
    cbn [VARS_getitem VARS List.find fst snd String.eqb Ascii.eqb Bool.eqb
         bind filter template].
  - destruct (truthy text) eqn:T; cbn [bind]; [|rewrite T; eauto].
    destruct (canonicalize_author_returns text) as [r Hr];
      [intros ->; now apply Ha|].
    rewrite Hr. cbn [bind].
    pose proof (canonicalize_author_chars
                  (fun c => negb (Ascii.eqb c "\")) eq_refl _ _ Ht Hr) as Hc.
    destruct (truthy r); [|eauto].
    exists (r ++ "."). split; [reflexivity|].
    now rewrite all_chars_app, Hc.
  - destruct (truthy text) eqn:T; cbn [bind]; [|rewrite T; eauto].
    destruct (canonicalize_title_returns text) as [r Hr];
      [intros ->; now apply Hq|].
    rewrite Hr. cbn [bind].
    pose proof (canonicalize_title_chars _ _ _ Ht Hr) as Hc.
    destruct (truthy r); [|eauto].
    exists (String quote (r ++ String quote "")). split; [reflexivity|].
    cbn [all_chars]. now rewrite all_chars_app, Hc.
  - destruct (truthy text) eqn:T; cbn [bind]; rewrite T; [|eauto].
    exists (text ++ "."). split; [reflexivity|].
    now rewrite all_chars_app, Ht.
  - destruct (truthy text) eqn:T; cbn [bind]; rewrite T; [|eauto].
    exists ("<<" ++ text ++ ">>"). split; [reflexivity|].
    change ("<<" ++ text ++ ">>") with (String "<" (String "<" (text ++ ">>"))).
    cbn [all_chars]. now rewrite all_chars_app, Ht.
Qed.

(** X13: how the step can fail for a registered name.  A value without
    backslash is always accepted, except the lone period for author and the
    lone double quote for title. *)
Theorem substitute_returns (entry var text : string) :
  In var Re.names ->
  all_chars (fun c => negb (Ascii.eqb c "\")) text = true ->
  ~ (var = "author" /\ text = ".") ->
  ~ (var = "title" /\ text = String quote "") ->
  exists entry', substitute entry var text = Ok entry'.
Proof.
  intros Hn Ht Ha Hq.
  destruct (wrap_returns var text Hn Ht Ha Hq) as (w & Hw & Hb).
  rewrite (substitute_literal entry var text w Hw Hb). eauto.
Qed.

Lemma substitute_returns_witness :
  exists entry', substitute TEMPLATE "author" "Bryan Kyle" = Ok entry'.
Proof.
  apply (substitute_returns TEMPLATE "author" "Bryan Kyle").
  - simpl. auto.
  - reflexivity.
  - intros [_ H]. discriminate.
  - intros [H _]. discriminate.
Defined.

(** * The command *)

Lemma wrap_ref (sel : string) :
  sel <> "" -> wrap "ref" sel = Ok ("<<" ++ sel ++ ">>").
Proof. intros H. destruct sel; [contradiction | reflexivity]. Qed.

Lemma substitute_ref_in_template (sel : string) :
  sel <> "" ->
  all_chars (fun c => negb (Ascii.eqb c "\")) sel = true ->
  substitute TEMPLATE "ref" sel
  = Ok ("<author> <title> <pubdate> <<" ++ sel ++ ">>").
Proof.
  intros Hs Hb.
  change TEMPLATE with ("<author> <title> <pubdate> " ++ token "ref" ++ "").
  rewrite (substitute_in_place "ref" _ "" sel ("<<" ++ sel ++ ">>")).
  - f_equal. rewrite append_empty_r.
    exact (strip_middle "<author> <title> <pubdate> <<" sel ">>"
                        eq_refl eq_refl).
  - simpl. auto.
  - now apply wrap_ref.
  - change ("<<" ++ sel ++ ">>") with (String "<" (String "<" (sel ++ ">>"))).
    cbn [all_chars]. now rewrite all_chars_app, Hb.
  - reflexivity.
  - reflexivity.
Qed.

(** X14: with a selection the command fills the reference first.  For a
    non-empty selection without backslash, [run] puts the selection between
    double angle brackets in place of the ref token, keeps the three other
    tokens, and prompts for the author. *)
Theorem run_with_selection (selection : string) :
  selection <> "" ->
  all_chars (fun c => negb (Ascii.eqb c "\")) selection = true ->
  run selection
  = Ok (show_input_panel "Author (Last, First)"
          ("<author> <title> <pubdate> <<" ++ selection ++ ">>") "author").
Proof.
  intros Hs Hb. unfold run.
  replace (len selection >? 0)%Z with true
    by (symmetry; apply Z.gtb_lt; unfold len;
        destruct selection; [contradiction | simpl; lia]).
  unfold get_next_input_or_insert.
  rewrite (substitute_ref_in_template selection Hs Hb). reflexivity.
Qed.

Lemma run_with_selection_witness :
  run "http://example.com"
  = Ok (show_input_panel "Author (Last, First)"
          ("<author> <title> <pubdate> <<" ++ "http://example.com" ++ ">>")
          "author").
Proof.
  apply (run_with_selection "http://example.com");
    [discriminate | reflexivity].
Defined.
